(** * cryptoquant: the service base class (service/base.py)

    A shallow embedding of [ServiceState] and [ServiceBase], the building
    block of the feed, order-management and strategy services, followed by
    the properties of its lifecycle state machine, of the remote-control
    listener and of the heartbeat reporter.

    The methods of [ServiceBase] read and write the attributes of [self],
    write to the logger, talk to two ZeroMQ sockets and may raise.  They are
    embedded in a small monad [M] that threads the [world] (the attributes,
    the heap holding the caller's dictionaries, the messages waiting on the
    sockets), collects the events a run emits and distinguishes a normal
    return from a raised exception and from a coroutine that waits for a
    message that is not there. *)

From Stdlib Require Import ZArith SpecFloat.
From stdpp Require Import base strings list gmap.

Local Open Scope string_scope.
Local Open Scope Z_scope.

(** ** class ServiceState(Enum) *)

Module ServiceState.

Inductive t : Set :=
| init
| starting
| started
| stopping
| stopped.

(** The [.value] of a member: the string given in the class body. *)
Definition value (s : t) : string :=
  match s with
  | init => "init"
  | starting => "starting"
  | started => "started"
  | stopping => "stopping"
  | stopped => "stopped"
  end.

(** [a == b] on members. *)
Definition eqb (a b : t) : bool :=
  match a, b with
  | init, init | starting, starting | started, started
  | stopping, stopping | stopped, stopped => true
  | _, _ => false
  end.

End ServiceState.

(** ** Python values

    The values that reach the code: what [json.loads] builds (None, bool,
    int, float, str, list, dict), the members of [ServiceState], [PEnum], a
    member of another Enum class (named by class and member), and [PObj], an
    instance of any other class (named by the class).  Dictionaries keep
    their insertion order, as Python's do, because [json.dumps] writes the
    keys in that order. *)

#[local] Set Warnings "-register-all".

Inductive pyval : Type :=
| PNone
| PBool (b : bool)
| PInt (z : Z)
| PFloat (f : spec_float)
| PStr (s : string)
| PList (l : list pyval)
| PDict (d : list (string * pyval))
| PState (s : ServiceState.t)
| PEnum (cls name : string)
| PObj (cls : string).

Abbreviation dict := (list (string * pyval)).

(** [d.get(k)]: the value stored under [k], if any. *)
Fixpoint dict_get (k : string) (d : dict) : option pyval :=
  match d with
  | [] => None
  | (k', v) :: d' => if String.eqb k' k then Some v else dict_get k d'
  end.

(** [d[k] = v]: an existing key keeps its place and gets the new value, a
    new key goes to the end. *)
Fixpoint dict_set (k : string) (v : pyval) (d : dict) : dict :=
  match d with
  | [] => [(k, v)]
  | (k', v') :: d' =>
      if String.eqb k' k then (k', v) :: d' else (k', v') :: dict_set k v d'
  end.

(** [d.update(other)]: the entries of [other], in order, are stored in [d]. *)
Definition dict_update (d other : dict) : dict :=
  fold_left (fun acc kv => dict_set kv.1 kv.2 acc) other d.

(** [v == s] for a str [s]: only an equal str compares equal. *)
Definition eq_str (v : pyval) (s : string) : bool :=
  match v with
  | PStr s' => String.eqb s' s
  | _ => false
  end.

(** What the test [v in ServiceState] comes to: True, and [v] is then the
    member [s]; False; or the test itself raises TypeError. *)
Inductive containment : Set :=
| Member (s : ServiceState.t)
| NotMember
| Unsupported.

(** [v in ServiceState], as [EnumMeta.__contains__] of Python 3.8 to 3.11
    decides it: a value that is not a member of any Enum is refused with
    TypeError ("unsupported operand type(s) for 'in'"); a member of an Enum
    is in when it is an instance of [ServiceState].  (Before 3.8 the test
    was False for every value that is not a member; from 3.12 it no longer
    raises, and is True also for the value of a member.) *)
Definition in_ServiceState (v : pyval) : containment :=
  match v with
  | PState s => Member s
  | PEnum _ _ => NotMember
  | _ => Unsupported
  end.

(** ** Events, exceptions and the monad *)

Inductive level : Set := INFO | ERROR.

(** The coroutines of [ServiceBase]. *)
Inductive method : Set := m_start | m_stop | m_run | m_pub_msg | m_sub_msg.

Definition method_eqb (a b : method) : bool :=
  match a, b with
  | m_start, m_start | m_stop, m_stop | m_run, m_run
  | m_pub_msg, m_pub_msg | m_sub_msg, m_sub_msg => true
  | _, _ => false
  end.

(** What a run does that can be observed from outside, in the order it
    happens.  [Log] is a call of [self.logger.info] or [.error] with its
    format string and arguments; [Enter m] marks that the coroutine [m]
    starts executing; [Assign s] is a write [self.state = s]; the others are
    the socket operations and [asyncio.sleep]. *)
Inductive event : Type :=
| Log (lv : level) (fmt : string) (args : list pyval)
| Enter (m : method)
| Assign (s : ServiceState.t)
| SendString (payload : string)
| RecvReply (reply : string)
| RecvControl (raw : string)
| Sleep (secs : Z).

(** The exceptions.  What [json.loads] and [json.dumps] raise is the
    library's business (for [loads] a JSONDecodeError on text that is not
    JSON, another ValueError or a RecursionError on text beyond the limits
    of the interpreter; for [dumps] a TypeError on a value of a class it
    does not know, a ValueError, a RecursionError): the service lets it
    through whatever it is, and [JsonLoadsError] and [JsonDumpsError] stand
    for the exception that the call raised. *)
Inductive exn : Set :=
| RuntimeError (msg : string)
| KeyError (key : string)
| TypeError
| AttributeError
| JsonLoadsError
| JsonDumpsError.

(** A reference to a dictionary on the heap. *)
Abbreviation loc := positive.

(** The attributes of [self] the methods use, the heap with the
    dictionaries that callers share with the service, and the messages the
    monitor has sent and the sockets have not yet delivered. *)
Record world : Type := World {
  state : ServiceState.t;       (* self.state *)
  sid : string;                 (* self.sid *)
  heap : gmap loc dict;
  subclient : list string;      (* waiting on self.subclient (SUB) *)
  reqclient : list string       (* waiting on self.reqclient (REQ) *)
}.

Definition set_state_field (s : ServiceState.t) (w : world) : world :=
  World s (sid w) (heap w) (subclient w) (reqclient w).
Definition set_heap (h : gmap loc dict) (w : world) : world :=
  World (state w) (sid w) h (subclient w) (reqclient w).
Definition set_subclient (q : list string) (w : world) : world :=
  World (state w) (sid w) (heap w) q (reqclient w).
Definition set_reqclient (q : list string) (w : world) : world :=
  World (state w) (sid w) (heap w) (subclient w) q.

(** How a run ends: it returns, it raises, or it waits for ever at an
    [await] on a socket no message arrives on. *)
Inductive outcome (A : Type) : Type :=
| Done (a : A)
| Raised (e : exn)
| Blocked.
Arguments Done {A} a.
Arguments Raised {A} e.
Arguments Blocked {A}.

Record res (A : Type) : Type := Res {
  out : outcome A;
  final : world;
  emitted : list event
}.
Arguments Res {A} out final emitted.
Arguments out {A} r.
Arguments final {A} r.
Arguments emitted {A} r.

Definition M (A : Type) : Type := world -> res A.

Definition ret {A} (a : A) : M A := fun w => Res (Done a) w [].

(** The result [r] of the rest of a run, after the events [t] of its
    beginning. *)
Definition after {A} (t : list event) (r : res A) : res A :=
  Res (out r) (final r) (t ++ emitted r).

Definition bind {A B} (m : M A) (f : A -> M B) : M B := fun w =>
  let r := m w in
  match out r with
  | Done a => after (emitted r) (f a (final r))
  | Raised e => Res (Raised e) (final r) (emitted r)
  | Blocked => Res Blocked (final r) (emitted r)
  end.

Declare Scope svc_scope.
Delimit Scope svc_scope with svc.
Notation "x <- m ; k" := (bind m (fun x => k))
  (at level 100, m at next level, right associativity) : svc_scope.
Notation "m ;; k" := (bind m (fun _ => k))
  (at level 100, right associativity) : svc_scope.
Local Open Scope svc_scope.

Definition raise {A} (e : exn) : M A := fun w => Res (Raised e) w [].
Definition emit (e : event) : M unit := fun w => Res (Done tt) w [e].
Definition get_state : M ServiceState.t := fun w => Res (Done (state w)) w [].
Definition get_sid : M string := fun w => Res (Done (sid w)) w [].

(** [self.state = s] *)
Definition assign (s : ServiceState.t) : M unit := fun w =>
  Res (Done tt) (set_state_field s w) [Assign s].

(** [n] rounds of a [while True:] loop; the loop itself never returns, so a
    run of it is described by its first [n] rounds, for every [n]. *)
Fixpoint while_True (n : nat) (body : M unit) : M unit :=
  match n with
  | O => ret tt
  | S k => body ;; while_True k body
  end.

(** The number of times the coroutine [m] is entered in a trace. *)
Fixpoint calls (m : method) (t : list event) : nat :=
  match t with
  | [] => O
  | Enter m' :: t' => if method_eqb m m' then S (calls m t') else calls m t'
  | _ :: t' => calls m t'
  end.

(** The states written to [self.state] in a trace, in order. *)
Fixpoint assigned (t : list event) : list ServiceState.t :=
  match t with
  | [] => []
  | Assign s :: t' => s :: assigned t'
  | _ :: t' => assigned t'
  end.

(** ** class ServiceBase *)

Module ServiceBase.

(** [__init__]: the attributes of a new service.  The two sockets are
    connected to the monitor; nothing has arrived on them yet. *)
Definition __init__ (h : gmap loc dict) : world :=
  World ServiceState.init "servicebase" h [] [].

Definition logger_info (fmt : string) (args : list pyval) : M unit :=
  emit (Log INFO fmt args).
Definition logger_error (fmt : string) (args : list pyval) : M unit :=
  emit (Log ERROR fmt args).

Definition _set_state (v : pyval) : M unit :=
  match in_ServiceState v with
  | Member s =>
      assign s ;;
      logger_info "set server state to %s" [v]
  | NotMember =>
      logger_error "invalid server state, need in ServiceState" [] ;;
      raise (RuntimeError "invalid server state, need in ServiceState")
  | Unsupported => raise TypeError
  end.

(** Return service state. *)
Definition status : M string :=
  s <- get_state ; ret (ServiceState.value s).

(** For PUB services to publish messages to zmq PUB socket: empty here. *)
Definition pub_msg : M unit := emit (Enter m_pub_msg).

(** For SUB services to consume messages from subscribed zmq PUBs: empty
    here. *)
Definition sub_msg : M unit := emit (Enter m_sub_msg).

(** Where the service does its job, and called by start func.  The two
    calls [await self.pub_msg()] and [await self.sub_msg()] are commented
    out in the source ("do nothing here in base class"), so the body of the
    else branch is the assignment alone. *)
Definition run : M unit :=
  emit (Enter m_run) ;;
  s <- get_state ;
  if ServiceState.eqb s ServiceState.started then
    logger_error "tried to run service, but state is %s" [PState s]
  else
    assign ServiceState.started.

(** Start service. *)
Definition start : M unit :=
  emit (Enter m_start) ;;
  _set_state (PState ServiceState.starting) ;;
  logger_info "service starting" [] ;;
  run.

(** Stop service. *)
Definition stop : M unit :=
  emit (Enter m_stop) ;;
  _set_state (PState ServiceState.stopped) ;;
  logger_info "service stopped" [].

Section Sockets.

(** [json.loads] and [json.dumps] belong to Python's library; the service
    only needs that decoding a string gives a value or fails, and that
    encoding a value gives a string or fails. *)
Variable json_loads : string -> option pyval.
Variable json_dumps : pyval -> option string.

(** [await self.subclient.recv_string()] *)
Definition subclient_recv_string : M string := fun w =>
  match subclient w with
  | [] => Res Blocked w []
  | raw :: q => Res (Done raw) (set_subclient q w) [RecvControl raw]
  end.

(** [await self.reqclient.send_string(s)] *)
Definition reqclient_send_string (s : string) : M unit :=
  emit (SendString s).

(** [await self.reqclient.recv_string()] *)
Definition reqclient_recv_string : M string := fun w =>
  match reqclient w with
  | [] => Res Blocked w []
  | reply :: q => Res (Done reply) (set_reqclient q w) [RecvReply reply]
  end.

(** [await asyncio.sleep(secs)] *)
Definition asyncio_sleep (secs : Z) : M unit := emit (Sleep secs).

Definition loads (raw : string) : M pyval :=
  match json_loads raw with
  | Some v => ret v
  | None => raise JsonLoadsError
  end.

Definition dumps (v : pyval) : M string :=
  match json_dumps v with
  | Some s => ret s
  | None => raise JsonDumpsError
  end.

(** [msg[k]]: only a dict can be indexed by a str, and the key must be
    there. *)
Definition getitem (msg : pyval) (k : string) : M pyval :=
  match msg with
  | PDict d =>
      match dict_get k d with
      | Some v => ret v
      | None => raise (KeyError k)
      end
  | _ => raise TypeError
  end.

(** One round of the loop of [on_control_msg]. *)
Definition on_control_msg_body : M unit :=
  raw <- subclient_recv_string ;
  msg <- loads raw ;
  msg_sid <- getitem msg "sid" ;
  self_sid <- get_sid ;
  if eq_str msg_sid self_sid then
    action <- getitem msg "action" ;
    if eq_str action "stop" then stop
    else if eq_str action "start" then run
    else ret tt
  else ret tt.

(** Listening from monitor PUB socket for remote control. *)
Definition on_control_msg (n : nat) : M unit :=
  while_True n on_control_msg_body.

(** [infos.update(other)] on the dictionary that [infos] refers to: the
    dictionary is changed where it is, so whoever holds the same reference
    sees the change.  Something that is not a dictionary has no [update]. *)
Definition update_at (infos : loc) (other : dict) : M unit := fun w =>
  match heap w !! infos with
  | Some d => Res (Done tt) (set_heap (<[infos := dict_update d other]> (heap w)) w) []
  | None => Res (Raised AttributeError) w []
  end.

(** Reading the dictionary that [infos] refers to. *)
Definition deref (infos : loc) : M dict := fun w =>
  match heap w !! infos with
  | Some d => Res (Done d) w []
  | None => Res (Raised AttributeError) w []
  end.

(** One round of the loop of [heartbeat]. *)
Definition heartbeat_body (infos : loc) : M unit :=
  self_sid <- get_sid ;
  s <- get_state ;
  update_at infos [("sid", PStr self_sid); ("type", PStr "heartbeat");
                   ("state", PStr (ServiceState.value s))] ;;
  d <- deref infos ;
  payload <- dumps (PDict d) ;
  reqclient_send_string payload ;;
  _ <- reqclient_recv_string ;
  asyncio_sleep 10.

(** Heartbeat, used to periodically update service status. *)
Definition heartbeat (n : nat) (infos : loc) : M unit :=
  while_True n (heartbeat_body infos).

End Sockets.

End ServiceBase.

(** ** Observations on traces *)

(** The calls of the two worker-body hooks in a trace. *)
Definition hook_calls (t : list event) : nat :=
  (calls m_pub_msg t + calls m_sub_msg t)%nat.

(** The log records of a trace. *)
Fixpoint logged (t : list event) : list event :=
  match t with
  | [] => []
  | Log lv fmt args :: t' => Log lv fmt args :: logged t'
  | _ :: t' => logged t'
  end.

Definition is_state (s : ServiceState.t) (v : pyval) : bool :=
  match v with
  | PState s' => ServiceState.eqb s s'
  | _ => false
  end.

(** Some log record of the trace has the state [s] among its arguments. *)
Fixpoint records_state (s : ServiceState.t) (t : list event) : bool :=
  match t with
  | [] => false
  | Log _ _ args :: t' => existsb (is_state s) args || records_state s t'
  | _ :: t' => records_state s t'
  end.

(** Every write to [self.state] in the trace is followed, later in the same
    trace, by a log record of the state written. *)
Fixpoint transitions_logged (t : list event) : bool :=
  match t with
  | [] => true
  | Assign s :: t' => records_state s t' && transitions_logged t'
  | _ :: t' => transitions_logged t'
  end.

(** A service just built, with no dictionary on the heap. *)
Definition fresh : world := ServiceBase.__init__ ∅.

(** The entries [heartbeat] writes into [infos]. *)
Definition heartbeat_fields (w : world) : dict :=
  [("sid", PStr (sid w)); ("type", PStr "heartbeat");
   ("state", PStr (ServiceState.value (state w)))].

(** A stand-in for [json.dumps] in the examples: it writes the keys of a
    dictionary, which is enough to tell two payloads apart. *)
Definition keys_dumps (v : pyval) : option string :=
  match v with
  | PDict d => Some (String.concat "," (map fst d))
  | _ => None
  end.

(** A stand-in for [json.loads] in the examples: it knows three control
    messages for the service id ["servicebase"] and one for another
    service. *)
Definition sample_loads (raw : string) : option pyval :=
  if String.eqb raw "stop-me" then
    Some (PDict [("sid", PStr "servicebase"); ("action", PStr "stop")])
  else if String.eqb raw "start-me" then
    Some (PDict [("sid", PStr "servicebase"); ("action", PStr "start")])
  else if String.eqb raw "pause-me" then
    Some (PDict [("sid", PStr "servicebase"); ("action", PStr "pause")])
  else if String.eqb raw "stop-other" then
    Some (PDict [("sid", PStr "feed"); ("action", PStr "stop")])
  else None.

(** ** Summaries of the loops *)

(** The keys of a dictionary, in the order [json.dumps] writes them. *)
Definition keys (d : dict) : list string := map fst d.

(** [k in d] *)
Definition has_key (k : string) (d : dict) : bool :=
  match dict_get k d with
  | Some _ => true
  | None => false
  end.

(** The payloads given to [reqclient.send_string] in a trace. *)
Fixpoint sent (t : list event) : list string :=
  match t with
  | [] => []
  | SendString p :: t' => p :: sent t'
  | _ :: t' => sent t'
  end.

(** The discipline of a REQ socket: a request may only be sent when no
    reply is awaited, a reply may only be received when one is.  From
    [awaiting], the trace is followed; the result is the situation at its
    end, or [None] when the trace breaks the discipline. *)
Fixpoint req_protocol (awaiting : bool) (t : list event) : option bool :=
  match t with
  | [] => Some awaiting
  | SendString _ :: t' => if awaiting then None else req_protocol true t'
  | RecvReply _ :: t' => if awaiting then req_protocol false t' else None
  | _ :: t' => req_protocol awaiting t'
  end.

(** The events of one complete round of [heartbeat]. *)
Definition round_events (payload reply : string) : list event :=
  [SendString payload; RecvReply reply; Sleep 10].

(** What a control message asks of the service with id [self_sid]. *)
Inductive command : Set := CmdStop | CmdStart | CmdIgnore.

(** The command in a raw message, for the messages the listener gets
    through: a dictionary with a ["sid"], and with an ["action"] when the
    sid is the service's own. *)
Definition decode_command (json_loads : string -> option pyval)
    (self_sid raw : string) : option command :=
  match json_loads raw with
  | Some (PDict d) =>
      match dict_get "sid" d with
      | Some v =>
          if eq_str v self_sid then
            match dict_get "action" d with
            | Some a =>
                Some (if eq_str a "stop" then CmdStop
                      else if eq_str a "start" then CmdStart
                      else CmdIgnore)
            | None => None
            end
          else Some CmdIgnore
      | None => None
      end
  | _ => None
  end.

(** The state a command leaves the service in. *)
Definition command_state (s : ServiceState.t) (c : command) : ServiceState.t :=
  match c with
  | CmdStop => ServiceState.stopped
  | CmdStart => ServiceState.started
  | CmdIgnore => s
  end.

(** The coroutines a user, or the loop that [start_service] feeds, may
    run on a service: the three lifecycle methods and a number of rounds of
    each of the two loops. *)
Inductive call : Type :=
| CallStart
| CallStop
| CallRun
| CallControl (n : nat)
| CallHeartbeat (n : nat) (infos : loc).

Definition perform (json_loads : string -> option pyval)
    (json_dumps : pyval -> option string) (c : call) : M unit :=
  match c with
  | CallStart => ServiceBase.start
  | CallStop => ServiceBase.stop
  | CallRun => ServiceBase.run
  | CallControl n => ServiceBase.on_control_msg json_loads n
  | CallHeartbeat n infos => ServiceBase.heartbeat json_dumps n infos
  end.

(** The calls are run one after the other on the same service.  Each is a
    task of its own: when one raises or waits, the service stays as that
    task left it and the next call finds it so. *)
Fixpoint perform_all (json_loads : string -> option pyval)
    (json_dumps : pyval -> option string) (cs : list call) (w : world)
    : world * list event :=
  match cs with
  | [] => (w, [])
  | c :: cs' =>
      let r := perform json_loads json_dumps c w in
      let '(w', t) := perform_all json_loads json_dumps cs' (final r) in
      (w', (emitted r ++ t)%list)
  end.

(** ** The monad *)

Section Monad.

Context {A B : Type}.

Lemma after_nil (r : res A) : after [] r = r.
Proof. by destruct r. Qed.

Lemma after_after (t t' : list event) (r : res A) :
  after t (after t' r) = after (t ++ t') r.
Proof. unfold after; simpl. by rewrite app_assoc. Qed.

Lemma bind_Done (m : M A) (f : A -> M B) (w w' : world) (a : A)
    (t : list event) :
  m w = Res (Done a) w' t -> bind m f w = after t (f a w').
Proof. intros H. unfold bind. by rewrite H. Qed.

Lemma bind_Raised (m : M A) (f : A -> M B) (w w' : world) (e : exn)
    (t : list event) :
  m w = Res (Raised e) w' t -> bind m f w = Res (Raised e) w' t.
Proof. intros H. unfold bind. by rewrite H. Qed.

Lemma bind_Blocked (m : M A) (f : A -> M B) (w w' : world)
    (t : list event) :
  m w = Res Blocked w' t -> bind m f w = Res Blocked w' t.
Proof. intros H. unfold bind. by rewrite H. Qed.

Lemma final_bind (m : M A) (f : A -> M B) (w : world) :
  final (bind m f w) =
  match out (m w) with
  | Done a => final (f a (final (m w)))
  | _ => final (m w)
  end.
Proof. unfold bind. by destruct (out (m w)). Qed.

End Monad.

(** ** Dictionaries *)

Section Dict.

Implicit Types (k : string) (v : pyval) (d : dict).

Lemma dict_get_set_eq k v d : dict_get k (dict_set k v d) = Some v.
Proof.
  induction d as [|[k' v'] d IH]; simpl.
  - by rewrite String.eqb_refl.
  - destruct (String.eqb k' k) eqn:E; simpl; by rewrite E.
Qed.

Lemma dict_get_set_ne k k' v d :
  k <> k' -> dict_get k' (dict_set k v d) = dict_get k' d.
Proof.
  intros Hne. induction d as [|[k0 v0] d IH]; simpl.
  - destruct (String.eqb k k') eqn:E; [|done].
    apply String.eqb_eq in E. contradiction.
  - destruct (String.eqb k0 k) eqn:E; simpl.
    + apply String.eqb_eq in E. subst k0.
      destruct (String.eqb k k') eqn:E'; [|done].
      apply String.eqb_eq in E'. contradiction.
    + by rewrite IH.
Qed.

(** Storing what is already there changes nothing, not even the order. *)
Lemma dict_set_same k v d : dict_get k d = Some v -> dict_set k v d = d.
Proof.
  induction d as [|[k' v'] d IH]; simpl; [done|].
  destruct (String.eqb k' k); intros H.
  - by inversion H.
  - by rewrite IH.
Qed.

End Dict.

(** The dictionary after [infos.update] with the three heartbeat entries. *)
Lemma heartbeat_fields_get (w : world) (d : dict) :
  let d' := dict_update d (heartbeat_fields w) in
  dict_get "sid" d' = Some (PStr (sid w)) /\
  dict_get "type" d' = Some (PStr "heartbeat") /\
  dict_get "state" d' = Some (PStr (ServiceState.value (state w))) /\
  forall k, k <> "sid" -> k <> "type" -> k <> "state" ->
            dict_get k d' = dict_get k d.
Proof.
  unfold dict_update, heartbeat_fields; simpl. repeat split.
  - rewrite !dict_get_set_ne by done. apply dict_get_set_eq.
  - rewrite dict_get_set_ne by done. apply dict_get_set_eq.
  - apply dict_get_set_eq.
  - intros k H1 H2 H3. by rewrite !dict_get_set_ne.
Qed.

(** A second update with the same entries is the identity. *)
Lemma heartbeat_fields_again (w : world) (d : dict) :
  let d' := dict_update d (heartbeat_fields w) in
  dict_update d' (heartbeat_fields w) = d'.
Proof.
  intros d'. destruct (heartbeat_fields_get w d) as (Hs & Ht & Hst & _).
  fold d' in Hs, Ht, Hst.
  unfold dict_update at 1. unfold heartbeat_fields at 1. simpl.
  rewrite (dict_set_same "sid") by done.
  rewrite (dict_set_same "type") by done.
  by rewrite (dict_set_same "state").
Qed.

(** ** The lifecycle state machine *)

Import ServiceBase.

Lemma while_True_S (n : nat) (body : M unit) :
  while_True (S n) body = (body ;; while_True n body).
Proof. reflexivity. Qed.

(** [_set_state] on a member: the write, then the log record of it. *)
Lemma _set_state_member (s : ServiceState.t) (w : world) :
  _set_state (PState s) w =
  Res (Done tt) (set_state_field s w)
      [Assign s; Log INFO "set server state to %s" [PState s]].
Proof. reflexivity. Qed.

Lemma _set_state_logged (s : ServiceState.t) (w : world) :
  transitions_logged (emitted (_set_state (PState s) w)) = true.
Proof. rewrite _set_state_member. by destruct s. Qed.

Lemma stop_eq (w : world) :
  stop w =
  Res (Done tt) (set_state_field ServiceState.stopped w)
      [Enter m_stop; Assign ServiceState.stopped;
       Log INFO "set server state to %s" [PState ServiceState.stopped];
       Log INFO "service stopped" []].
Proof. reflexivity. Qed.

Lemma stop_logged (w : world) : transitions_logged (emitted (stop w)) = true.
Proof. reflexivity. Qed.

Lemma run_started (w : world) :
  state w = ServiceState.started ->
  run w =
  Res (Done tt) w
      [Enter m_run;
       Log ERROR "tried to run service, but state is %s"
           [PState ServiceState.started]].
Proof. intros H. unfold run, bind; simpl. by rewrite H. Qed.

Lemma run_not_started (w : world) :
  state w <> ServiceState.started ->
  run w =
  Res (Done tt) (set_state_field ServiceState.started w)
      [Enter m_run; Assign ServiceState.started].
Proof.
  intros H. unfold run, bind; simpl.
  destruct (state w); try done.
Qed.

(** [run] has two behaviours and no other. *)
Lemma run_cases (w : world) :
  run w =
    Res (Done tt) w
        [Enter m_run;
         Log ERROR "tried to run service, but state is %s"
             [PState ServiceState.started]] \/
  run w =
    Res (Done tt) (set_state_field ServiceState.started w)
        [Enter m_run; Assign ServiceState.started].
Proof.
  destruct (state w) eqn:E;
    first [ left; by apply run_started
          | right; apply run_not_started; rewrite E; discriminate ].
Qed.

(** C1 fails on the values that are no Enum members.  What holds: for
    every member S of ServiceState, [_set_state S] returns normally and
    [status] then returns the [.value] of S; for a member of another Enum,
    [_set_state] logs the error and raises RuntimeError, and [self.state]
    is what it was.  But for any other value (a str, None, a number) the
    test [state in ServiceState] itself raises TypeError: neither the ERROR
    record nor the RuntimeError of the else branch, written for this very
    case, is reached; the service is unchanged. *)
Theorem C1_set_state (w : world) (v : pyval) :
  (forall s, v = PState s ->
     out (_set_state v w) = Done tt /\
     state (final (_set_state v w)) = s /\
     out (status (final (_set_state v w))) = Done (ServiceState.value s)) /\
  (forall cls name, v = PEnum cls name ->
     _set_state v w =
       Res (Raised (RuntimeError "invalid server state, need in ServiceState"))
           w [Log ERROR "invalid server state, need in ServiceState" []]) /\
  ((forall s, v <> PState s) -> (forall cls name, v <> PEnum cls name) ->
     _set_state v w = Res (Raised TypeError) w []).
Proof.
  split; [|split].
  - intros s ->. by rewrite _set_state_member.
  - by intros cls name ->.
  - intros Hs He. destruct v; try done.
    + by destruct (Hs s).
    + by destruct (He cls name).
Qed.

Lemma C1_set_state_witness :
  (out (_set_state (PState ServiceState.stopping) fresh) = Done tt /\
   state (final (_set_state (PState ServiceState.stopping) fresh))
     = ServiceState.stopping /\
   out (status (final (_set_state (PState ServiceState.stopping) fresh)))
     = Done "stopping") /\
  (_set_state (PEnum "OrderState" "filled") fresh =
     Res (Raised (RuntimeError "invalid server state, need in ServiceState"))
         fresh [Log ERROR "invalid server state, need in ServiceState" []]) /\
  (_set_state (PStr "started") fresh = Res (Raised TypeError) fresh []).
Proof.
  split; [|split].
  - apply (proj1 (C1_set_state fresh (PState ServiceState.stopping))
                 ServiceState.stopping).
    reflexivity.
  - apply (proj1 (proj2 (C1_set_state fresh (PEnum "OrderState" "filled")))
                 "OrderState" "filled").
    reflexivity.
  - apply (proj2 (proj2 (C1_set_state fresh (PStr "started")))).
    + intros s. discriminate.
    + intros cls name. discriminate.
Defined.

(** C2. When the state is already [started], [run] does nothing: it
    returns, the service is exactly as before (so the state is still
    [started]), nothing is written to [self.state], and neither [pub_msg]
    nor [sub_msg] is entered. *)
Theorem C2_run_when_started (w : world) :
  state w = ServiceState.started ->
  out (run w) = Done tt /\
  final (run w) = w /\
  state (final (run w)) = ServiceState.started /\
  assigned (emitted (run w)) = [] /\
  hook_calls (emitted (run w)) = O.
Proof. intros H. by rewrite run_started. Qed.

Lemma C2_run_when_started_witness :
  let w := set_state_field ServiceState.started fresh in
  state w = ServiceState.started /\
  out (run w) = Done tt /\
  final (run w) = w /\
  state (final (run w)) = ServiceState.started /\
  assigned (emitted (run w)) = [] /\
  hook_calls (emitted (run w)) = O.
Proof.
  split; [reflexivity|].
  apply (C2_run_when_started (set_state_field ServiceState.started fresh)).
  reflexivity.
Defined.

(** C3, as the spec states it, fails on a service just built: [run] does
    move the state from [init] to [started], but it enters no hook, so the
    count of hook calls is 0 and not 1 (neither [pub_msg] nor [sub_msg] is
    entered once). *)
Lemma C3_run_hook_counterexample :
  state fresh = ServiceState.init /\
  ~ (state (final (run fresh)) = ServiceState.started /\
     (hook_calls (emitted (run fresh)) = 1%nat \/
      calls m_pub_msg (emitted (run fresh)) = 1%nat \/
      calls m_sub_msg (emitted (run fresh)) = 1%nat)).
Proof.
  split; [reflexivity|].
  intros [_ [H | [H | H]]]; vm_compute in H; discriminate.
Qed.

(** C3, amended. From [init], [starting] or [stopped], one call of [run]
    returns with the state [started], written once, and enters neither
    [pub_msg] nor [sub_msg]: in the base class the two calls are commented
    out and the worker body is left to the subclasses. *)
Theorem C3_run_transitions (w : world) :
  state w = ServiceState.init \/ state w = ServiceState.starting \/
  state w = ServiceState.stopped ->
  out (run w) = Done tt /\
  state (final (run w)) = ServiceState.started /\
  assigned (emitted (run w)) = [ServiceState.started] /\
  calls m_pub_msg (emitted (run w)) = O /\
  calls m_sub_msg (emitted (run w)) = O.
Proof.
  intros H. rewrite run_not_started; [done|].
  destruct H as [H | [H | H]]; rewrite H; discriminate.
Qed.

Lemma C3_run_transitions_witness :
  let w := set_state_field ServiceState.stopped fresh in
  out (run w) = Done tt /\
  state (final (run w)) = ServiceState.started /\
  assigned (emitted (run w)) = [ServiceState.started] /\
  calls m_pub_msg (emitted (run w)) = O /\
  calls m_sub_msg (emitted (run w)) = O.
Proof.
  apply (C3_run_transitions (set_state_field ServiceState.stopped fresh)).
  right; right; reflexivity.
Defined.

(** C4. Whatever the state before, [stop] returns with the state
    [stopped], and [stopped] is the only value it writes to [self.state]:
    [stopping] is never set on the way. *)
Theorem C4_stop (w : world) :
  out (stop w) = Done tt /\
  state (final (stop w)) = ServiceState.stopped /\
  assigned (emitted (stop w)) = [ServiceState.stopped] /\
  ServiceState.stopping ∉ assigned (emitted (stop w)).
Proof.
  rewrite stop_eq; simpl. repeat split.
  intros H. apply list_elem_of_singleton in H. discriminate.
Qed.

(** C8 fails on [run]: from any state but [started], [run] writes
    [started] to [self.state] and emits no log record at all, so the
    transition goes unrecorded, while [_set_state] and [stop] record theirs
    (lemmas [_set_state_logged] and [stop_logged]); [start], which ends in
    [run], inherits the unrecorded transition. *)
Theorem C8_run_transition_not_logged (w : world) :
  state w <> ServiceState.started ->
  state (final (run w)) = ServiceState.started /\
  assigned (emitted (run w)) = [ServiceState.started] /\
  logged (emitted (run w)) = [] /\
  transitions_logged (emitted (run w)) = false /\
  transitions_logged (emitted (start w)) = false.
Proof.
  intros H. rewrite run_not_started by done. repeat split.
Qed.

Lemma C8_run_transition_not_logged_witness :
  state (final (run fresh)) = ServiceState.started /\
  assigned (emitted (run fresh)) = [ServiceState.started] /\
  logged (emitted (run fresh)) = [] /\
  transitions_logged (emitted (run fresh)) = false /\
  transitions_logged (emitted (start fresh)) = false.
Proof. apply (C8_run_transition_not_logged fresh). discriminate. Defined.

(** C9. From [stopping], too, [run] returns with the state [started]: the
    guard leaves out [started] only. *)
Theorem C9_run_from_stopping (w : world) :
  state w = ServiceState.stopping ->
  out (run w) = Done tt /\
  state (final (run w)) = ServiceState.started /\
  assigned (emitted (run w)) = [ServiceState.started] /\
  final (run w) = set_state_field ServiceState.started w.
Proof.
  intros H. rewrite run_not_started; [done|]. rewrite H. discriminate.
Qed.

Lemma C9_run_from_stopping_witness :
  let w := set_state_field ServiceState.stopping fresh in
  out (run w) = Done tt /\
  state (final (run w)) = ServiceState.started /\
  assigned (emitted (run w)) = [ServiceState.started] /\
  final (run w) = set_state_field ServiceState.started w.
Proof.
  apply (C9_run_from_stopping (set_state_field ServiceState.stopping fresh)).
  reflexivity.
Defined.

(** ** The control listener *)

Lemma eq_str_false (v : pyval) (s : string) : v <> PStr s -> eq_str v s = false.
Proof.
  intros H. destruct v; try done. simpl.
  destruct (String.eqb s0 s) eqn:E; [|done].
  apply String.eqb_eq in E. by subst.
Qed.

Lemma eq_str_refl (s : string) : eq_str (PStr s) s = true.
Proof. apply String.eqb_refl. Qed.

(** One round on a message that decodes to a dictionary with a ["sid"]
    entry: the message is taken from the socket, and what follows depends
    on the comparison with [self.sid]. *)
Lemma on_control_msg_body_eq (json_loads : string -> option pyval)
    (w : world) (raw : string) (q : list string) (d : dict) (msg_sid : pyval) :
  subclient w = raw :: q ->
  json_loads raw = Some (PDict d) ->
  dict_get "sid" d = Some msg_sid ->
  on_control_msg_body json_loads w =
  after [RecvControl raw]
    ((if eq_str msg_sid (sid w) then
        bind (getitem (PDict d) "action")
             (fun action =>
                if eq_str action "stop" then stop
                else if eq_str action "start" then run
                else ret tt)
      else ret tt)
       (set_subclient q w)).
Proof.
  intros Hq Hl Hs. unfold on_control_msg_body.
  erewrite bind_Done;
    [|unfold subclient_recv_string; rewrite Hq; reflexivity].
  f_equal.
  erewrite bind_Done; [|unfold loads; rewrite Hl; reflexivity].
  rewrite after_nil.
  erewrite bind_Done; [|unfold getitem; rewrite Hs; reflexivity].
  rewrite after_nil.
  erewrite bind_Done; [|reflexivity].
  by rewrite after_nil.
Qed.

(** C5. A control message addressed to this service ([sid] equal to
    [self.sid]): on action ["stop"] the round is the receipt followed by
    one run of [stop]; on action ["start"] it is the receipt followed by one
    run of [run], [start] is never entered and [starting] is never written;
    on any other action nothing is entered and the service is as before,
    but for the message taken from the socket. *)
Theorem C5_control_for_this_service (json_loads : string -> option pyval)
    (w : world) (raw : string) (q : list string) (d : dict) (action : pyval) :
  subclient w = raw :: q ->
  json_loads raw = Some (PDict d) ->
  dict_get "sid" d = Some (PStr (sid w)) ->
  dict_get "action" d = Some action ->
  let r := on_control_msg_body json_loads w in
  let w' := set_subclient q w in
  (action = PStr "stop" ->
     r = after [RecvControl raw] (stop w') /\
     calls m_stop (emitted r) = 1%nat /\
     calls m_run (emitted r) = O /\
     calls m_start (emitted r) = O) /\
  (action = PStr "start" ->
     r = after [RecvControl raw] (run w') /\
     calls m_run (emitted r) = 1%nat /\
     calls m_start (emitted r) = O /\
     calls m_stop (emitted r) = O /\
     ServiceState.starting ∉ assigned (emitted r)) /\
  (action <> PStr "stop" -> action <> PStr "start" ->
     r = Res (Done tt) w' [RecvControl raw] /\
     state (final r) = state w /\
     calls m_stop (emitted r) = O /\
     calls m_run (emitted r) = O /\
     calls m_start (emitted r) = O).
Proof.
  intros Hq Hl Hs Ha r w'.
  assert (Hr : r = after [RecvControl raw]
                 ((if eq_str action "stop" then stop
                   else if eq_str action "start" then run
                   else ret tt) w')).
  { unfold r. rewrite (on_control_msg_body_eq _ _ _ _ _ _ Hq Hl Hs).
    rewrite eq_str_refl.
    erewrite bind_Done; [|unfold getitem; rewrite Ha; reflexivity].
    by rewrite after_nil. }
  clearbody r. subst r. split; [|split].
  - intros ->. change (eq_str (PStr "stop") "stop") with true.
    cbv iota. repeat split.
  - intros ->. change (eq_str (PStr "start") "stop") with false.
    change (eq_str (PStr "start") "start") with true. cbv iota.
    destruct (run_cases w') as [-> | ->]; simpl; repeat split.
    + apply not_elem_of_nil.
    + intros H. apply list_elem_of_singleton in H. discriminate.
  - intros H1 H2. rewrite (eq_str_false _ _ H1), (eq_str_false _ _ H2).
    repeat split.
Qed.

Lemma C5_control_for_this_service_witness :
  let w := World ServiceState.started "servicebase" ∅
             ["stop-me"; "start-me"; "pause-me"] [] in
  let w1 := final (on_control_msg_body sample_loads w) in
  let w2 := final (on_control_msg_body sample_loads w1) in
  (calls m_stop (emitted (on_control_msg_body sample_loads w)) = 1%nat /\
   state w1 = ServiceState.stopped) /\
  (calls m_run (emitted (on_control_msg_body sample_loads w1)) = 1%nat /\
   calls m_start (emitted (on_control_msg_body sample_loads w1)) = O /\
   state w2 = ServiceState.started) /\
  (on_control_msg_body sample_loads w2 =
     Res (Done tt) (set_subclient [] w2) [RecvControl "pause-me"]).
Proof.
  intros w w1 w2.
  pose proof (proj1 (C5_control_for_this_service sample_loads w "stop-me"
                ["start-me"; "pause-me"]
                [("sid", PStr "servicebase"); ("action", PStr "stop")]
                (PStr "stop") eq_refl eq_refl eq_refl eq_refl) eq_refl)
    as (Hstop & Hstop1 & _).
  pose proof (proj1 (proj2 (C5_control_for_this_service sample_loads w1
                "start-me" ["pause-me"]
                [("sid", PStr "servicebase"); ("action", PStr "start")]
                (PStr "start") eq_refl eq_refl eq_refl eq_refl)) eq_refl)
    as (Hstart & Hrun1 & Hstart0 & _).
  assert (Hp1 : PStr "pause" <> PStr "stop") by discriminate.
  assert (Hp2 : PStr "pause" <> PStr "start") by discriminate.
  pose proof (proj2 (proj2 (C5_control_for_this_service sample_loads w2
                "pause-me" []
                [("sid", PStr "servicebase"); ("action", PStr "pause")]
                (PStr "pause") eq_refl eq_refl eq_refl eq_refl)) Hp1 Hp2)
    as (Hpause & _).
  split; [split|split; [split; [|split]|]].
  - exact Hstop1.
  - unfold w1. rewrite Hstop. reflexivity.
  - exact Hrun1.
  - exact Hstart0.
  - unfold w2. rewrite Hstart. reflexivity.
  - exact Hpause.
Defined.

(** C6. A control message addressed to another service ([sid] different
    from [self.sid]) is dropped: the round returns, the service is as
    before but for the message taken from the socket, so the state is
    unchanged; [stop], [run], [start] and the two hooks are not entered,
    nothing is written to [self.state] and nothing is logged. *)
Theorem C6_control_for_another_service (json_loads : string -> option pyval)
    (w : world) (raw : string) (q : list string) (d : dict) (msg_sid : pyval) :
  subclient w = raw :: q ->
  json_loads raw = Some (PDict d) ->
  dict_get "sid" d = Some msg_sid ->
  msg_sid <> PStr (sid w) ->
  let r := on_control_msg_body json_loads w in
  out r = Done tt /\
  final r = set_subclient q w /\
  state (final r) = state w /\
  emitted r = [RecvControl raw] /\
  calls m_stop (emitted r) = O /\
  calls m_run (emitted r) = O /\
  calls m_start (emitted r) = O /\
  hook_calls (emitted r) = O /\
  assigned (emitted r) = [] /\
  logged (emitted r) = [].
Proof.
  intros Hq Hl Hs Hne r. subst r.
  rewrite (on_control_msg_body_eq _ _ _ _ _ _ Hq Hl Hs).
  rewrite (eq_str_false _ _ Hne). repeat split.
Qed.

Lemma C6_control_for_another_service_witness :
  let w := World ServiceState.started "servicebase" ∅ ["stop-other"] [] in
  let r := on_control_msg_body sample_loads w in
  out r = Done tt /\
  final r = set_subclient [] w /\
  state (final r) = state w /\
  emitted r = [RecvControl "stop-other"] /\
  calls m_stop (emitted r) = O /\
  calls m_run (emitted r) = O /\
  calls m_start (emitted r) = O /\
  hook_calls (emitted r) = O /\
  assigned (emitted r) = [] /\
  logged (emitted r) = [].
Proof.
  intros w.
  apply (C6_control_for_another_service sample_loads w "stop-other" []
           [("sid", PStr "feed"); ("action", PStr "stop")] (PStr "feed")
           eq_refl eq_refl eq_refl).
  discriminate.
Defined.

(** ** The heartbeat reporter *)

(** The first half of a round: the three entries are stored in the
    caller's dictionary; what follows works on the updated dictionary. *)
Lemma heartbeat_body_eq (json_dumps : pyval -> option string)
    (infos : loc) (w : world) (d : dict) :
  heap w !! infos = Some d ->
  heartbeat_body json_dumps infos w =
  bind (dumps json_dumps (PDict (dict_update d (heartbeat_fields w))))
       (fun payload =>
          reqclient_send_string payload ;;
          _ <- reqclient_recv_string ;
          asyncio_sleep 10)
       (set_heap (<[infos := dict_update d (heartbeat_fields w)]> (heap w)) w).
Proof.
  intros Hd. unfold heartbeat_body.
  erewrite bind_Done; [|reflexivity]. rewrite after_nil.
  erewrite bind_Done; [|reflexivity]. rewrite after_nil.
  erewrite bind_Done; [|unfold update_at; rewrite Hd; reflexivity].
  rewrite after_nil.
  erewrite bind_Done;
    [|unfold deref; cbn [heap set_heap]; rewrite lookup_insert_eq; reflexivity].
  by rewrite after_nil.
Qed.

(** Whatever the end of a round, the caller's dictionary has been updated
    and nothing else of the service has changed but the reply queue. *)
Lemma heartbeat_body_final (json_dumps : pyval -> option string)
    (infos : loc) (w : world) (d : dict) :
  heap w !! infos = Some d ->
  let w' := final (heartbeat_body json_dumps infos w) in
  heap w' = <[infos := dict_update d (heartbeat_fields w)]> (heap w) /\
  state w' = state w /\
  sid w' = sid w.
Proof.
  intros Hd. rewrite (heartbeat_body_eq _ _ _ _ Hd).
  unfold bind at 1, dumps.
  destruct (json_dumps _) as [payload|]; [|done].
  cbn [out final emitted ret after].
  unfold bind, reqclient_send_string, reqclient_recv_string, emit.
  cbn [out final emitted after reqclient set_heap].
  by destruct (reqclient w).
Qed.

(** Once the dictionary holds the three entries, further rounds leave the
    heap, the state and the service id as they are. *)
Lemma heartbeat_stable (json_dumps : pyval -> option string)
    (infos : loc) (n : nat) (w : world) (d : dict) :
  heap w !! infos = Some d ->
  dict_update d (heartbeat_fields w) = d ->
  let w' := final (heartbeat json_dumps n infos w) in
  heap w' = heap w /\ state w' = state w /\ sid w' = sid w.
Proof.
  revert w. induction n as [|n IH]; intros w Hd Hfix; [done|].
  destruct (heartbeat_body_final json_dumps infos w d Hd) as (Hh & Hst & Hsid).
  rewrite Hfix, insert_id in Hh by done.
  unfold heartbeat. rewrite while_True_S. fold (heartbeat json_dumps n infos).
  rewrite final_bind.
  destruct (out (heartbeat_body json_dumps infos w)); [|done..].
  set (w1 := final (heartbeat_body json_dumps infos w)) in *.
  assert (Hf : heartbeat_fields w1 = heartbeat_fields w).
  { unfold heartbeat_fields. by rewrite Hst, Hsid. }
  destruct (IH w1) as (Hh' & Hst' & Hsid').
  - by rewrite Hh.
  - by rewrite Hf.
  - by rewrite Hh', Hst', Hsid', Hh.
Qed.



(** C10. [heartbeat] changes the dictionary the caller passed, where it
    is: after any number of rounds, at least one, however the last one
    ended, the caller's reference leads to the dictionary in which ["sid"],
    ["type"] and ["state"] hold the service's values, whatever the caller
    had stored under them, and every other key holds what it held; the
    other dictionaries on the heap are untouched. *)
Theorem C10_heartbeat_updates_infos (json_dumps : pyval -> option string)
    (n : nat) (infos : loc) (w : world) (d : dict) :
  heap w !! infos = Some d ->
  let w' := final (heartbeat json_dumps (S n) infos w) in
  exists d',
    heap w' !! infos = Some d' /\
    d' = dict_update d (heartbeat_fields w) /\
    dict_get "sid" d' = Some (PStr (sid w)) /\
    dict_get "type" d' = Some (PStr "heartbeat") /\
    dict_get "state" d' = Some (PStr (ServiceState.value (state w))) /\
    (forall k, k <> "sid" -> k <> "type" -> k <> "state" ->
               dict_get k d' = dict_get k d) /\
    (forall l : loc, l <> infos -> heap w' !! l = heap w !! l).
Proof.
  intros Hd w'. exists (dict_update d (heartbeat_fields w)).
  destruct (heartbeat_fields_get w d) as (Hs & Ht & Hst & Hk).
  assert (Hheap : heap w' =
                  <[infos := dict_update d (heartbeat_fields w)]> (heap w)).
  { unfold w', heartbeat. rewrite while_True_S, final_bind.
    destruct (heartbeat_body_final json_dumps infos w d Hd) as (Hh & Hs1 & Hi1).
    destruct (out (heartbeat_body json_dumps infos w)); [|done..].
    set (w1 := final (heartbeat_body json_dumps infos w)) in *.
    assert (Hf : heartbeat_fields w1 = heartbeat_fields w).
    { unfold heartbeat_fields. by rewrite Hs1, Hi1. }
    destruct (heartbeat_stable json_dumps infos n w1
                (dict_update d (heartbeat_fields w))) as (Hh' & _).
    - by rewrite Hh, lookup_insert_eq.
    - rewrite Hf. apply heartbeat_fields_again.
    - fold (heartbeat json_dumps n infos). by rewrite Hh'. }
  rewrite Hheap. repeat split; try done.
  - apply lookup_insert_eq.
  - intros l Hl. by apply lookup_insert_ne.
Qed.

Lemma C10_heartbeat_updates_infos_witness :
  let w := World ServiceState.stopped "servicebase"
             {[ 1%positive := [("sid", PStr "mine"); ("host", PStr "a")];
                2%positive := [("sid", PStr "other")] ]}
             [] ["ok"] in
  let w' := final (heartbeat keys_dumps 3 1%positive w) in
  exists d',
    heap w' !! 1%positive = Some d' /\
    d' = dict_update [("sid", PStr "mine"); ("host", PStr "a")]
                     (heartbeat_fields w) /\
    dict_get "sid" d' = Some (PStr "servicebase") /\
    dict_get "type" d' = Some (PStr "heartbeat") /\
    dict_get "state" d' = Some (PStr "stopped") /\
    (forall k, k <> "sid" -> k <> "type" -> k <> "state" ->
               dict_get k d' = dict_get k [("sid", PStr "mine"); ("host", PStr "a")]) /\
    (forall l : loc, l <> 1%positive -> heap w' !! l = heap w !! l).
Proof.
  intros w.
  apply (C10_heartbeat_updates_infos keys_dumps 2 1%positive w
           [("sid", PStr "mine"); ("host", PStr "a")]).
  reflexivity.
Defined.

(** ** Two runs from beginning to end *)

(** Boot: [start] on a new service takes the state from [init] through
    [starting] to [started], and the first heartbeat reports [started]. *)
Example boot_then_heartbeat :
  let w := set_reqclient ["ack"] (ServiceBase.__init__ {[ 1%positive := [] ]}) in
  let r := (start ;; heartbeat keys_dumps 1 1%positive) w in
  out r = Done tt /\
  assigned (emitted r) = [ServiceState.starting; ServiceState.started] /\
  heap (final r) !! 1%positive =
    Some [("sid", PStr "servicebase"); ("type", PStr "heartbeat");
          ("state", PStr "started")].
Proof. repeat split. Qed.

(** A remote stop followed by a heartbeat: the heartbeat reports [stopped];
    with no reply from the monitor the reporter stays at the receive. *)
Example stop_then_heartbeat :
  let w := World ServiceState.started "servicebase" {[ 1%positive := [] ]}
             ["stop-me"] [] in
  let r := (on_control_msg sample_loads 1 ;; heartbeat keys_dumps 2 1%positive) w in
  out r = Blocked /\
  state (final r) = ServiceState.stopped /\
  dict_get "state" (default [] (heap (final r) !! 1%positive)) =
    Some (PStr "stopped") /\
  calls m_stop (emitted r) = 1%nat.
Proof. repeat split. Qed.

(** ** More on the monad and on traces *)

Local Open Scope list_scope.
#[local] Set Warnings "-clear-no-such-hyp".

Lemma emitted_bind {A B} (m : M A) (f : A -> M B) (w : world) :
  emitted (bind m f w) =
  match out (m w) with
  | Done a => emitted (m w) ++ emitted (f a (final (m w)))
  | _ => emitted (m w)
  end.
Proof. unfold bind. by destruct (out (m w)). Qed.

Lemma out_bind {A B} (m : M A) (f : A -> M B) (w : world) :
  out (bind m f w) =
  match out (m w) with
  | Done a => out (f a (final (m w)))
  | Raised e => Raised e
  | Blocked => Blocked
  end.
Proof. unfold bind. by destruct (out (m w)). Qed.

Lemma assigned_app (t t' : list event) :
  assigned (t ++ t') = assigned t ++ assigned t'.
Proof.
  induction t as [|e t IH]; [done|]. destruct e; simpl; by rewrite ?IH.
Qed.

Lemma logged_app (t t' : list event) : logged (t ++ t') = logged t ++ logged t'.
Proof.
  induction t as [|e t IH]; [done|]. destruct e; simpl; by rewrite ?IH.
Qed.

Lemma sent_app (t t' : list event) : sent (t ++ t') = sent t ++ sent t'.
Proof.
  induction t as [|e t IH]; [done|]. destruct e; simpl; by rewrite ?IH.
Qed.

Lemma calls_app (m : method) (t t' : list event) :
  calls m (t ++ t') = (calls m t + calls m t')%nat.
Proof.
  induction t as [|e t IH]; [done|]. destruct e; simpl; try done.
  destruct (method_eqb m m0); simpl; by rewrite IH.
Qed.

Lemma req_protocol_app (a : bool) (t t' : list event) :
  req_protocol a (t ++ t') =
  match req_protocol a t with
  | Some a' => req_protocol a' t'
  | None => None
  end.
Proof.
  revert a. induction t as [|e t IH]; intros a; [done|].
  destruct e; simpl; try apply IH; destruct a; simpl; try done; apply IH.
Qed.

(** What every round of a loop keeps, the loop keeps: [R] relates the
    service before and after, [P] is a property of traces that holds of the
    empty trace and of the concatenation of two traces it holds of. *)
Lemma while_True_keeps (R : world -> world -> Prop) (P : list event -> Prop)
    (body : M unit) :
  (forall w, R w w) ->
  (forall a b c, R a b -> R b c -> R a c) ->
  P [] ->
  (forall t t', P t -> P t' -> P (t ++ t')) ->
  (forall w, R w (final (body w)) /\ P (emitted (body w))) ->
  forall n w,
    R w (final (while_True n body w)) /\ P (emitted (while_True n body w)).
Proof.
  intros Hrefl Htrans Hnil Happ Hbody. induction n as [|n IH]; intros w.
  - by split.
  - rewrite while_True_S, final_bind, emitted_bind.
    destruct (Hbody w) as [HR HP].
    destruct (out (body w)); [|done..].
    destruct (IH (final (body w))) as [HR' HP']. split.
    + by eapply Htrans.
    + by apply Happ.
Qed.

(** ** One round of the listener, case by case *)

Lemma on_control_msg_body_unfold (json_loads : string -> option pyval)
    (w : world) :
  on_control_msg_body json_loads w =
  match subclient w with
  | [] => Res Blocked w []
  | raw :: q =>
      let w1 := set_subclient q w in
      after [RecvControl raw]
        match json_loads raw with
        | None => Res (Raised JsonLoadsError) w1 []
        | Some (PDict d) =>
            match dict_get "sid" d with
            | None => Res (Raised (KeyError "sid")) w1 []
            | Some v =>
                if eq_str v (sid w) then
                  match dict_get "action" d with
                  | None => Res (Raised (KeyError "action")) w1 []
                  | Some a =>
                      (if eq_str a "stop" then stop
                       else if eq_str a "start" then run
                       else ret tt) w1
                  end
                else Res (Done tt) w1 []
            end
        | Some _ => Res (Raised TypeError) w1 []
        end
  end.
Proof.
  destruct (subclient w) as [|raw q] eqn:Hq.
  { unfold on_control_msg_body. erewrite bind_Blocked; [done|].
    unfold subclient_recv_string. by rewrite Hq. }
  cbv zeta. destruct (json_loads raw) as [v|] eqn:Hl.
  2:{ unfold on_control_msg_body.
      erewrite bind_Done;
        [|unfold subclient_recv_string; rewrite Hq; reflexivity].
      f_equal. erewrite bind_Raised; [done|].
      unfold loads. by rewrite Hl. }
  assert (Hnd : forall e, getitem v "sid" (set_subclient q w) =
                          Res (Raised e) (set_subclient q w) [] ->
                on_control_msg_body json_loads w =
                after [RecvControl raw] (Res (Raised e) (set_subclient q w) [])).
  { intros e He. unfold on_control_msg_body.
    erewrite bind_Done;
      [|unfold subclient_recv_string; rewrite Hq; reflexivity].
    f_equal. erewrite bind_Done; [|unfold loads; rewrite Hl; reflexivity].
    rewrite after_nil. by erewrite bind_Raised. }
  destruct v as [| | | | | |d| | |]; try (by apply Hnd).
  destruct (dict_get "sid" d) as [v|] eqn:Hs.
  2:{ apply Hnd. unfold getitem. by rewrite Hs. }
  rewrite (on_control_msg_body_eq _ _ _ _ _ _ Hq Hl Hs). f_equal.
  destruct (eq_str v (sid w)); [|done].
  destruct (dict_get "action" d) as [a|] eqn:Ha.
  - erewrite bind_Done; [|unfold getitem; rewrite Ha; reflexivity].
    by rewrite after_nil.
  - erewrite bind_Raised; [done|]. unfold getitem. by rewrite Ha.
Qed.

(** ** One round of the reporter, case by case *)

Lemma heartbeat_body_unfold (json_dumps : pyval -> option string)
    (infos : loc) (w : world) :
  heartbeat_body json_dumps infos w =
  match heap w !! infos with
  | None => Res (Raised AttributeError) w []
  | Some d =>
      let d' := dict_update d (heartbeat_fields w) in
      let w1 := set_heap (<[infos := d']> (heap w)) w in
      match json_dumps (PDict d') with
      | None => Res (Raised JsonDumpsError) w1 []
      | Some payload =>
          match reqclient w with
          | [] => Res Blocked w1 [SendString payload]
          | reply :: q =>
              Res (Done tt) (set_reqclient q w1) (round_events payload reply)
          end
      end
  end.
Proof.
  destruct (heap w !! infos) as [d|] eqn:Hd.
  2:{ unfold heartbeat_body.
      erewrite bind_Done; [|reflexivity]. rewrite after_nil.
      erewrite bind_Done; [|reflexivity]. rewrite after_nil.
      erewrite bind_Raised; [done|]. unfold update_at. by rewrite Hd. }
  rewrite (heartbeat_body_eq _ _ _ _ Hd). cbv zeta.
  destruct (json_dumps _) as [payload|] eqn:Hp.
  2:{ erewrite bind_Raised; [done|]. unfold dumps. by rewrite Hp. }
  erewrite bind_Done; [|unfold dumps; rewrite Hp; reflexivity].
  rewrite after_nil.
  erewrite bind_Done; [|reflexivity].
  destruct (reqclient w) as [|reply q] eqn:Hq.
  - erewrite bind_Blocked; [done|].
    unfold reqclient_recv_string. cbn [reqclient set_heap]. by rewrite Hq.
  - erewrite bind_Done;
      [|unfold reqclient_recv_string; cbn [reqclient set_heap];
        rewrite Hq; reflexivity].
    reflexivity.
Qed.

(** ** More on the lifecycle *)

Lemma value_inj (s s' : ServiceState.t) :
  ServiceState.value s = ServiceState.value s' -> s = s'.
Proof. destruct s, s'; simpl; intros H; first [done | discriminate H]. Qed.

(** Whatever [run] finds, it leaves the state [started] and the rest of
    the service alone. *)
Lemma run_frame (w : world) :
  out (run w) = Done tt /\
  final (run w) = set_state_field ServiceState.started w /\
  assigned (emitted (run w)) ⊆ [ServiceState.started] /\
  calls m_start (emitted (run w)) = O /\
  calls m_stop (emitted (run w)) = O /\
  hook_calls (emitted (run w)) = O /\
  sent (emitted (run w)) = [].
Proof.
  destruct (state w) eqn:E;
    first [ rewrite run_started by done; destruct w; simpl in *; subst;
            repeat split; set_solver
          | rewrite run_not_started by (rewrite E; discriminate);
            repeat split; set_solver ].
Qed.

(** X1. [start] never fails and never meets the guard of [run]: from every
    state, [started] included, it returns with the state [started], having
    written [starting] and then [started], entered [run] once and no hook,
    and logged two INFO records and no ERROR. *)
Theorem X1_start_from_any_state (w : world) :
  out (start w) = Done tt /\
  final (start w) = set_state_field ServiceState.started w /\
  assigned (emitted (start w)) =
    [ServiceState.starting; ServiceState.started] /\
  calls m_run (emitted (start w)) = 1%nat /\
  hook_calls (emitted (start w)) = O /\
  logged (emitted (start w)) =
    [Log INFO "set server state to %s" [PState ServiceState.starting];
     Log INFO "service starting" []].
Proof. repeat split. Qed.

(** X2. [status] only reads: the service is unchanged and nothing is
    emitted; and what it returns tells the states apart, two services give
    the same status exactly when they are in the same state. *)
Theorem X2_status_identifies_state (w w' : world) :
  final (status w) = w /\
  emitted (status w) = [] /\
  (out (status w) = out (status w') <-> state w = state w').
Proof.
  repeat split.
  - intros H. injection H as H. by apply value_inj.
  - unfold status, bind; simpl. by intros ->.
Qed.

(** X3. A second [run] right after a first changes nothing: the service is
    as the first left it, and the second only logs the error of the
    guard. *)
Theorem X3_run_twice (w : world) :
  let w1 := final (run w) in
  state w1 = ServiceState.started /\
  out (run w1) = Done tt /\
  final (run w1) = w1 /\
  emitted (run w1) =
    [Enter m_run;
     Log ERROR "tried to run service, but state is %s"
         [PState ServiceState.started]].
Proof.
  intros w1.
  assert (Hs : state w1 = ServiceState.started).
  { unfold w1. by destruct (run_frame w) as (_ & -> & _). }
  split; [done|]. by rewrite (run_started w1 Hs).
Qed.

(** ** More on the control listener *)

(** A round of the listener never touches the service id, the heap or the
    replies of the monitor, takes at most the first message, and leaves the
    state as it was or [started] or [stopped]; it writes no other state,
    and neither enters [start] or a hook nor sends anything. *)
Lemma control_round_keeps (json_loads : string -> option pyval) (w : world) :
  let r := on_control_msg_body json_loads w in
  (sid (final r) = sid w /\
   heap (final r) = heap w /\
   reqclient (final r) = reqclient w /\
   subclient (final r) `suffix_of` subclient w /\
   (state (final r) = state w \/ state (final r) = ServiceState.started \/
    state (final r) = ServiceState.stopped)) /\
  (assigned (emitted r) ⊆ [ServiceState.started; ServiceState.stopped] /\
   calls m_start (emitted r) = O /\
   hook_calls (emitted r) = O /\
   sent (emitted r) = []).
Proof.
  cbv zeta. rewrite on_control_msg_body_unfold.
  destruct (subclient w) as [|raw q] eqn:Hq.
  { simpl. rewrite Hq. repeat split; try done; auto; set_solver. }
  assert (Hsuf : q `suffix_of` raw :: q) by (by apply suffix_cons_r).
  cbv zeta.
  destruct (json_loads raw) as [[| | | | | |d| | |]|];
    try (simpl; repeat split; try done; auto; set_solver).
  destruct (dict_get "sid" d) as [v|];
    [|simpl; repeat split; try done; auto; set_solver].
  destruct (eq_str v (sid w));
    [|simpl; repeat split; try done; auto; set_solver].
  destruct (dict_get "action" d) as [a|];
    [|simpl; repeat split; try done; auto; set_solver].
  destruct (eq_str a "stop");
    [simpl; repeat split; try done; auto; set_solver|].
  destruct (eq_str a "start");
    [|simpl; repeat split; try done; auto; set_solver].
  destruct (run_cases (set_subclient q w)) as [-> | ->];
    simpl; repeat split; try done; auto; set_solver.
Qed.

(** The same over any number of rounds. *)
Lemma control_keeps (json_loads : string -> option pyval) (n : nat) (w : world) :
  let r := on_control_msg json_loads n w in
  (sid (final r) = sid w /\
   heap (final r) = heap w /\
   reqclient (final r) = reqclient w /\
   subclient (final r) `suffix_of` subclient w /\
   (state (final r) = state w \/ state (final r) = ServiceState.started \/
    state (final r) = ServiceState.stopped)) /\
  (assigned (emitted r) ⊆ [ServiceState.started; ServiceState.stopped] /\
   calls m_start (emitted r) = O /\
   hook_calls (emitted r) = O /\
   sent (emitted r) = []).
Proof.
  revert n w.
  apply (while_True_keeps
           (fun w w' =>
              sid w' = sid w /\ heap w' = heap w /\
              reqclient w' = reqclient w /\
              subclient w' `suffix_of` subclient w /\
              (state w' = state w \/ state w' = ServiceState.started \/
               state w' = ServiceState.stopped))
           (fun t =>
              assigned t ⊆ [ServiceState.started; ServiceState.stopped] /\
              calls m_start t = O /\ hook_calls t = O /\ sent t = [])).
  - intros w. repeat split; auto.
  - intros a b c (H1 & H2 & H3 & H4 & H5) (H1' & H2' & H3' & H4' & H5').
    repeat split; try congruence.
    + by etrans.
    + destruct H5' as [E | [E | E]]; rewrite E; auto.
  - repeat split; set_solver.
  - intros t t' (H1 & H2 & H3 & H4) (H1' & H2' & H3' & H4').
    unfold hook_calls in *.
    rewrite assigned_app, !calls_app, sent_app, H2, H2', H4, H4'.
    repeat split; try done; [set_solver | lia].
  - apply control_round_keeps.
Qed.

(** The loop stops at the first round that does not return. *)
Lemma while_True_stops (n : nat) (body : M unit) (w w' : world)
    (o : outcome unit) (t : list event) :
  body w = Res o w' t -> o <> Done tt ->
  while_True (S n) body w = Res o w' t.
Proof.
  intros Hb Ho. rewrite while_True_S.
  destruct o as [[]| |]; [done|..].
  - by erewrite bind_Raised.
  - by erewrite bind_Blocked.
Qed.

(** X4. A message that cannot be decoded, or that decodes to something
    that is not a dictionary, ends the listener: in the first case with the
    exception [json.loads] raised, in the second with the TypeError of
    indexing by ["sid"]; the message has been taken, the state is
    unchanged, and the messages behind it are never read, however long the
    loop is given. *)
Theorem X4_control_not_an_object (json_loads : string -> option pyval)
    (n : nat) (w : world) (raw : string) (q : list string) :
  subclient w = raw :: q ->
  (json_loads raw = None ->
     on_control_msg json_loads (S n) w =
       Res (Raised JsonLoadsError) (set_subclient q w) [RecvControl raw]) /\
  (forall v, json_loads raw = Some v -> (forall d, v <> PDict d) ->
     on_control_msg json_loads (S n) w =
       Res (Raised TypeError) (set_subclient q w) [RecvControl raw]).
Proof.
  intros Hq.
  pose proof (on_control_msg_body_unfold json_loads w) as Hb.
  rewrite Hq in Hb. cbv zeta in Hb. split.
  - intros Hl. rewrite Hl in Hb. by apply while_True_stops.
  - intros v Hl Hv. rewrite Hl in Hb.
    apply while_True_stops; [|done].
    destruct v; try done. by destruct (Hv d).
Qed.

Lemma X4_control_not_an_object_witness :
  let loads := fun raw : string =>
                 if String.eqb raw "[1, 2]" then Some (PList [PInt 1; PInt 2])
                 else sample_loads raw in
  let w := World ServiceState.started "servicebase" ∅
             ["not json"; "stop-me"] [] in
  let w' := World ServiceState.started "servicebase" ∅
             ["[1, 2]"; "stop-me"] [] in
  on_control_msg loads 2 w =
    Res (Raised JsonLoadsError) (set_subclient ["stop-me"] w)
        [RecvControl "not json"] /\
  on_control_msg loads 2 w' =
    Res (Raised TypeError) (set_subclient ["stop-me"] w')
        [RecvControl "[1, 2]"].
Proof.
  intros loads w w'. split.
  - exact (proj1 (X4_control_not_an_object loads 1 w "not json"
                    ["stop-me"] eq_refl) eq_refl).
  - apply (proj2 (X4_control_not_an_object loads 1 w' "[1, 2]"
                    ["stop-me"] eq_refl) (PList [PInt 1; PInt 2]) eq_refl).
    intros d. discriminate.
Defined.

(** X5. A JSON object without ["sid"] ends the listener with
    KeyError('sid'); one with the service's own sid and without ["action"]
    ends it with KeyError('action').  In both cases the state is unchanged
    and the messages behind are never read. *)
Theorem X5_control_missing_key (json_loads : string -> option pyval)
    (n : nat) (w : world) (raw : string) (q : list string) (d : dict) :
  subclient w = raw :: q ->
  json_loads raw = Some (PDict d) ->
  (dict_get "sid" d = None ->
     on_control_msg json_loads (S n) w =
       Res (Raised (KeyError "sid")) (set_subclient q w) [RecvControl raw]) /\
  (dict_get "sid" d = Some (PStr (sid w)) -> dict_get "action" d = None ->
     on_control_msg json_loads (S n) w =
       Res (Raised (KeyError "action")) (set_subclient q w)
           [RecvControl raw]).
Proof.
  intros Hq Hl.
  pose proof (on_control_msg_body_unfold json_loads w) as Hb.
  rewrite Hq in Hb. cbv zeta in Hb. rewrite Hl in Hb. split.
  - intros Hs. rewrite Hs in Hb. by apply while_True_stops.
  - intros Hs Ha. rewrite Hs, eq_str_refl, Ha in Hb.
    by apply while_True_stops.
Qed.

Lemma X5_control_missing_key_witness :
  let loads := fun raw : string =>
                 Some (PDict [("sid", PStr "servicebase")]) in
  let w := World ServiceState.started "servicebase" ∅ ["x"; "y"] [] in
  on_control_msg loads 5 w =
    Res (Raised (KeyError "action")) (set_subclient ["y"] w)
        [RecvControl "x"].
Proof.
  intros loads w.
  exact (proj2 (X5_control_missing_key loads 4 w "x" ["y"]
                  [("sid", PStr "servicebase")] eq_refl eq_refl)
               eq_refl eq_refl).
Defined.

(** A round on a message that carries a command: it returns, the message
    is gone from the socket and the state is the one the command asks
    for. *)
Lemma control_round_decoded (json_loads : string -> option pyval)
    (w : world) (raw : string) (q : list string) (c : command) :
  subclient w = raw :: q ->
  decode_command json_loads (sid w) raw = Some c ->
  let r := on_control_msg_body json_loads w in
  out r = Done tt /\
  subclient (final r) = q /\
  state (final r) = command_state (state w) c.
Proof.
  intros Hq Hc. cbv zeta. rewrite on_control_msg_body_unfold, Hq. cbv zeta.
  unfold decode_command in Hc.
  destruct (json_loads raw) as [[| | | | | |d| | |]|]; try done.
  destruct (dict_get "sid" d) as [v|]; [|done].
  destruct (eq_str v (sid w)).
  - destruct (dict_get "action" d) as [a|]; [|done].
    injection Hc as <-.
    destruct (eq_str a "stop"); [done|].
    destruct (eq_str a "start"); [|done].
    destruct (run_frame (set_subclient q w)) as (Ho & Hf & _).
    unfold after. cbn [out final]. by rewrite Ho, Hf.
  - by injection Hc as <-.
Qed.

(** X6. On messages that all carry a command, the listener is a fold: [n]
    rounds take the first [n] messages, in order, and the state at the end
    is the state the commands lead to one after the other; when fewer than
    [n] messages are there, the listener waits after the last one. *)
Theorem X6_control_is_a_fold (json_loads : string -> option pyval)
    (n : nat) (w : world) (msgs : list string) (cmds : list command) :
  subclient w = msgs ->
  Forall2 (fun raw c => decode_command json_loads (sid w) raw = Some c)
          msgs cmds ->
  let r := on_control_msg json_loads n w in
  out r = (if (n <=? length cmds)%nat then Done tt else Blocked) /\
  subclient (final r) = drop n msgs /\
  state (final r) = fold_left command_state (take n cmds) (state w).
Proof.
  revert w msgs cmds.
  induction n as [|n IH]; intros w msgs cmds Hq Hall; [done|].
  cbv zeta. unfold on_control_msg. rewrite while_True_S.
  fold (on_control_msg json_loads n).
  rewrite out_bind, final_bind.
  destruct Hall as [|raw c q cmds' Hc Hall].
  - by rewrite on_control_msg_body_unfold, Hq.
  - destruct (control_round_decoded json_loads w raw q c Hq Hc)
      as (Ho & Hq' & Hs).
    destruct (control_round_keeps json_loads w) as ((Hsid & _) & _).
    rewrite Ho.
    set (w1 := final (on_control_msg_body json_loads w)) in *.
    destruct (IH w1 q cmds' Hq') as (Ho1 & Hq1 & Hs1).
    { by rewrite Hsid. }
    rewrite Ho1, Hq1, Hs1, Hs. done.
Qed.

Lemma X6_control_is_a_fold_witness :
  let w := World ServiceState.init "servicebase" ∅
             ["start-me"; "stop-other"; "stop-me"; "pause-me"] [] in
  let r := on_control_msg sample_loads 7 w in
  out r = Blocked /\
  subclient (final r) = [] /\
  state (final r) = ServiceState.stopped.
Proof.
  intros w.
  apply (X6_control_is_a_fold sample_loads 7 w
           ["start-me"; "stop-other"; "stop-me"; "pause-me"]
           [CmdStart; CmdIgnore; CmdStop; CmdIgnore] eq_refl).
  repeat constructor.
Defined.

(** X7. Whatever arrives and however many rounds are run, the listener
    changes nothing of the service but the state and the messages it takes:
    the service id, the heap and the replies of the monitor are as before,
    the messages left are the end of the queue it found, and the state is
    the one it found, or [started], or [stopped].  It writes no other state
    ([starting], [stopping] and [init] never), never enters [start] or a
    hook, and sends nothing. *)
Theorem X7_control_frame (json_loads : string -> option pyval)
    (n : nat) (w : world) :
  let r := on_control_msg json_loads n w in
  sid (final r) = sid w /\
  heap (final r) = heap w /\
  reqclient (final r) = reqclient w /\
  subclient (final r) `suffix_of` subclient w /\
  (state (final r) = state w \/ state (final r) = ServiceState.started \/
   state (final r) = ServiceState.stopped) /\
  (forall s, s ∈ assigned (emitted r) ->
             s = ServiceState.started \/ s = ServiceState.stopped) /\
  calls m_start (emitted r) = O /\
  hook_calls (emitted r) = O /\
  sent (emitted r) = [].
Proof.
  destruct (control_keeps json_loads n w)
    as ((H1 & H2 & H3 & H4 & H5) & H6 & H7 & H8 & H9).
  repeat split; try done.
  intros s Hs. apply H6 in Hs. set_solver.
Qed.

(** ** More on the heartbeat reporter *)

(** A round of the reporter leaves the state, the service id and the
    control messages alone, takes at most the first reply, and changes no
    dictionary but the caller's; it logs nothing, writes no state and
    enters no coroutine. *)
Lemma heartbeat_round_keeps (json_dumps : pyval -> option string)
    (infos : loc) (w : world) :
  let r := heartbeat_body json_dumps infos w in
  (state (final r) = state w /\
   sid (final r) = sid w /\
   subclient (final r) = subclient w /\
   reqclient (final r) `suffix_of` reqclient w /\
   (forall l : loc, l <> infos -> heap (final r) !! l = heap w !! l)) /\
  (assigned (emitted r) = [] /\
   logged (emitted r) = [] /\
   forall m, calls m (emitted r) = O).
Proof.
  cbv zeta. rewrite heartbeat_body_unfold.
  destruct (heap w !! infos) as [d|]; [|done].
  cbv zeta. destruct (json_dumps _) as [payload|].
  - destruct (reqclient w) as [|reply q] eqn:Hq; simpl; rewrite ?Hq;
      repeat split; try done;
      try (intros l Hl; by rewrite lookup_insert_ne).
    by apply suffix_cons_r.
  - simpl. repeat split; try done.
    intros l Hl. by rewrite lookup_insert_ne.
Qed.

Lemma heartbeat_keeps (json_dumps : pyval -> option string)
    (infos : loc) (n : nat) (w : world) :
  let r := heartbeat json_dumps n infos w in
  (state (final r) = state w /\
   sid (final r) = sid w /\
   subclient (final r) = subclient w /\
   reqclient (final r) `suffix_of` reqclient w /\
   (forall l : loc, l <> infos -> heap (final r) !! l = heap w !! l)) /\
  (assigned (emitted r) = [] /\
   logged (emitted r) = [] /\
   forall m, calls m (emitted r) = O).
Proof.
  revert n w.
  apply (while_True_keeps
           (fun w w' =>
              state w' = state w /\ sid w' = sid w /\
              subclient w' = subclient w /\
              reqclient w' `suffix_of` reqclient w /\
              (forall l : loc, l <> infos -> heap w' !! l = heap w !! l))
           (fun t =>
              assigned t = [] /\ logged t = [] /\
              forall m, calls m t = O)).
  - intros w. by repeat split.
  - intros a b c (H1 & H2 & H3 & H4 & H5) (H1' & H2' & H3' & H4' & H5').
    repeat split; try congruence.
    + by etrans.
    + intros l Hl. by rewrite H5', H5.
  - by repeat split.
  - intros t t' (H1 & H2 & H3) (H1' & H2' & H3').
    rewrite assigned_app, logged_app, H1, H1', H2, H2'.
    repeat split; try done. intros m. by rewrite calls_app, H3, H3'.
  - apply heartbeat_round_keeps.
Qed.

(** X8. However many rounds are run and however they end, the reporter
    only reports: the state, the service id and the waiting control
    messages are as before, the replies left are the end of the queue it
    found, and every dictionary on the heap but the caller's is untouched;
    it writes no state, logs nothing and enters no coroutine. *)
Theorem X8_heartbeat_frame (json_dumps : pyval -> option string)
    (n : nat) (infos : loc) (w : world) :
  let r := heartbeat json_dumps n infos w in
  state (final r) = state w /\
  sid (final r) = sid w /\
  subclient (final r) = subclient w /\
  reqclient (final r) `suffix_of` reqclient w /\
  (forall l : loc, l <> infos -> heap (final r) !! l = heap w !! l) /\
  assigned (emitted r) = [] /\
  logged (emitted r) = [] /\
  (forall m, calls m (emitted r) = O).
Proof.
  destruct (heartbeat_keeps json_dumps infos n w)
    as ((H1 & H2 & H3 & H4 & H5) & H6 & H7 & H8).
  by repeat split.
Qed.

(** X9. The reporter keeps the discipline of a REQ socket, whatever the
    monitor does: in the trace of any number of rounds, requests and
    replies alternate, beginning with a request; a reply is still awaited
    at the end exactly when the reporter is left waiting for it. *)
Theorem X9_heartbeat_request_reply (json_dumps : pyval -> option string)
    (n : nat) (infos : loc) (w : world) :
  let r := heartbeat json_dumps n infos w in
  req_protocol false (emitted r) =
    Some (match out r with Blocked => true | _ => false end).
Proof.
  revert w. induction n as [|n IH]; intros w; [done|].
  cbv zeta. unfold heartbeat. rewrite while_True_S.
  fold (heartbeat json_dumps n infos).
  rewrite out_bind, emitted_bind, heartbeat_body_unfold.
  destruct (heap w !! infos) as [d|]; [|done].
  cbv zeta. destruct (json_dumps _) as [payload|]; [|done].
  destruct (reqclient w) as [|reply q]; [done|].
  cbn [out final emitted]. rewrite req_protocol_app. apply IH.
Qed.

(** X10. When the caller's dictionary cannot be encoded, the reporter
    ends with the exception [json.dumps] raised, before anything is sent,
    and no reply is taken; but the three entries have already been stored
    in the caller's dictionary. *)
Theorem X10_heartbeat_not_serializable (json_dumps : pyval -> option string)
    (n : nat) (infos : loc) (w : world) (d : dict) :
  heap w !! infos = Some d ->
  json_dumps (PDict (dict_update d (heartbeat_fields w))) = None ->
  heartbeat json_dumps (S n) infos w =
    Res (Raised JsonDumpsError)
        (set_heap (<[infos := dict_update d (heartbeat_fields w)]> (heap w)) w)
        [].
Proof.
  intros Hd Hp. apply while_True_stops; [|done].
  by rewrite heartbeat_body_unfold, Hd; cbv zeta; rewrite Hp.
Qed.

Lemma X10_heartbeat_not_serializable_witness :
  let w := World ServiceState.started "servicebase"
             {[ 1%positive := [("host", PStr "a")] ]} [] ["ok"] in
  heartbeat (fun _ => None) 3 1%positive w =
    Res (Raised JsonDumpsError)
        (set_heap {[ 1%positive :=
                       [("host", PStr "a"); ("sid", PStr "servicebase");
                        ("type", PStr "heartbeat");
                        ("state", PStr "started")] ]} w)
        [].
Proof.
  intros w.
  exact (X10_heartbeat_not_serializable (fun _ => None) 2 1%positive w
           [("host", PStr "a")] eq_refl eq_refl).
Defined.



(** ** The keys of the caller's dictionary *)

Lemma dict_get_None_keys (k : string) (d : dict) :
  dict_get k d = None <-> k ∉ keys d.
Proof.
  induction d as [|[k' v] d IH]; simpl.
  - split; [intros _; apply not_elem_of_nil | done].
  - destruct (String.eqb k' k) eqn:E.
    + apply String.eqb_eq in E. subst. split; [done|].
      intros H. destruct H. by left.
    + rewrite IH. apply String.eqb_neq in E.
      rewrite not_elem_of_cons. naive_solver.
Qed.

Lemma keys_dict_set (k : string) (v : pyval) (d : dict) :
  keys (dict_set k v d) = keys d ++ (if has_key k d then [] else [k]).
Proof.
  unfold has_key. induction d as [|[k' v'] d IH]; simpl; [done|].
  destruct (String.eqb k' k) eqn:E; simpl.
  - by rewrite app_nil_r.
  - rewrite IH. by destruct (dict_get k d).
Qed.

Lemma has_key_dict_set_ne (k k' : string) (v : pyval) (d : dict) :
  k <> k' -> has_key k' (dict_set k v d) = has_key k' d.
Proof. intros H. unfold has_key. by rewrite dict_get_set_ne. Qed.

Lemma NoDup_keys_dict_set (k : string) (v : pyval) (d : dict) :
  NoDup (keys d) -> NoDup (keys (dict_set k v d)).
Proof.
  intros H. rewrite keys_dict_set. unfold has_key.
  destruct (dict_get k d) eqn:E; [by rewrite app_nil_r|].
  apply NoDup_app. repeat split; [done| |apply NoDup_singleton].
  intros x Hx Hk. apply list_elem_of_singleton in Hk. subst x.
  by apply dict_get_None_keys in E.
Qed.

(** X12. The reporter does not reorder, rename or drop the caller's
    entries: after a round, however it ended, the keys of the caller's
    dictionary are the keys it had, in the same order, followed by those of
    ["sid"], ["type"], ["state"] that were missing, in this order; and keys
    that were distinct are still distinct. *)
Theorem X12_heartbeat_keeps_keys (json_dumps : pyval -> option string)
    (infos : loc) (w : world) (d : dict) :
  heap w !! infos = Some d ->
  exists d',
    heap (final (heartbeat_body json_dumps infos w)) !! infos = Some d' /\
    keys d' =
      keys d ++ (if has_key "sid" d then [] else ["sid"])
             ++ (if has_key "type" d then [] else ["type"])
             ++ (if has_key "state" d then [] else ["state"]) /\
    (NoDup (keys d) -> NoDup (keys d')).
Proof.
  intros Hd. exists (dict_update d (heartbeat_fields w)).
  destruct (heartbeat_body_final json_dumps infos w d Hd) as (Hh & _).
  rewrite Hh, lookup_insert_eq. split; [done|].
  unfold dict_update, heartbeat_fields; simpl. split.
  - rewrite !keys_dict_set, !has_key_dict_set_ne by done.
    by rewrite <- !app_assoc.
  - intros H. by do 3 apply NoDup_keys_dict_set.
Qed.

Lemma X12_heartbeat_keeps_keys_witness :
  let w := World ServiceState.started "servicebase"
             {[ 1%positive := [("type", PStr "feed"); ("host", PStr "a")] ]}
             [] [] in
  exists d',
    heap (final (heartbeat_body keys_dumps 1%positive w)) !! 1%positive
      = Some d' /\
    keys d' = ["type"; "host"; "sid"; "state"] /\
    (NoDup ["type"; "host"] -> NoDup (keys d')).
Proof.
  intros w.
  exact (X12_heartbeat_keeps_keys keys_dumps 1%positive w
           [("type", PStr "feed"); ("host", PStr "a")] eq_refl).
Defined.

(** ** Sequences of calls *)

Lemma perform_keeps (json_loads : string -> option pyval)
    (json_dumps : pyval -> option string) (c : call) (w : world) :
  let r := perform json_loads json_dumps c w in
  sid (final r) = sid w /\
  (state (final r) = state w \/ state (final r) = ServiceState.started \/
   state (final r) = ServiceState.stopped) /\
  assigned (emitted r) ⊆
    [ServiceState.starting; ServiceState.started; ServiceState.stopped] /\
  hook_calls (emitted r) = O.
Proof.
  destruct c as [| | |n|n infos]; cbv zeta; cbn [perform].
  - repeat split; auto. set_solver.
  - repeat split; auto. set_solver.
  - destruct (run_frame w) as (_ & Hf & Ha & _ & _ & Hh & _).
    rewrite Hf. repeat split; auto. set_solver.
  - destruct (control_keeps json_loads n w)
      as ((H1 & _ & _ & _ & H5) & H6 & _ & H8 & _).
    repeat split; auto. set_solver.
  - destruct (heartbeat_keeps json_dumps infos n w)
      as ((H1 & H2 & _) & H6 & _ & H8).
    unfold hook_calls. rewrite H1, H2, H6, !H8. repeat split; auto.
    set_solver.
Qed.

(** X13. Over any sequence of calls of [start], [stop], [run], rounds of
    the listener and rounds of the reporter, on any input: the service id
    never changes; the only states ever written are [starting], [started]
    and [stopped], so [stopping] is never entered and [init] never comes
    back; between two calls the state is the one the sequence began with,
    or [started], or [stopped]; and no hook is ever entered. *)
Theorem X13_calls_keep_within_lifecycle (json_loads : string -> option pyval)
    (json_dumps : pyval -> option string) (cs : list call) (w : world) :
  let r := perform_all json_loads json_dumps cs w in
  sid r.1 = sid w /\
  (state r.1 = state w \/ state r.1 = ServiceState.started \/
   state r.1 = ServiceState.stopped) /\
  (forall s, s ∈ assigned r.2 ->
     s = ServiceState.starting \/ s = ServiceState.started \/
     s = ServiceState.stopped) /\
  hook_calls r.2 = O.
Proof.
  cbv zeta. revert w. induction cs as [|c cs IH]; intros w.
  - simpl. repeat split; auto. intros s Hs. by apply not_elem_of_nil in Hs.
  - cbn [perform_all].
    destruct (perform_keeps json_loads json_dumps c w) as (H1 & H2 & H3 & H4).
    specialize (IH (final (perform json_loads json_dumps c w))).
    destruct (perform_all json_loads json_dumps cs _) as [w' t].
    cbn [fst snd] in *. destruct IH as (H1' & H2' & H3' & H4').
    repeat split.
    + congruence.
    + destruct H2' as [E | [E | E]]; rewrite E; auto.
    + intros s Hs. rewrite assigned_app in Hs.
      apply elem_of_app in Hs as [Hs | Hs]; [|by apply H3'].
      apply H3 in Hs. set_solver.
    + unfold hook_calls in *. rewrite !calls_app. lia.
Qed.

(** X14. The reporter tells the monitor what the listener did: after a
    round of the listener on a message that carries a command, the next
    round of the reporter stores in the caller's dictionary the [.value] of
    the state the command asked for, next to the service id, and what it
    sends is the encoding of that dictionary. *)
Theorem X14_command_then_heartbeat (json_loads : string -> option pyval)
    (json_dumps : pyval -> option string) (infos : loc) (w : world)
    (raw : string) (q : list string) (c : command) (d : dict) :
  subclient w = raw :: q ->
  decode_command json_loads (sid w) raw = Some c ->
  heap w !! infos = Some d ->
  let w1 := final (on_control_msg_body json_loads w) in
  let r := heartbeat_body json_dumps infos w1 in
  exists d',
    heap (final r) !! infos = Some d' /\
    dict_get "sid" d' = Some (PStr (sid w)) /\
    dict_get "state" d' =
      Some (PStr (ServiceState.value (command_state (state w) c))) /\
    (forall k, k <> "sid" -> k <> "type" -> k <> "state" ->
               dict_get k d' = dict_get k d) /\
    (forall payload, json_dumps (PDict d') = Some payload ->
                     sent (emitted r) = [payload]).
Proof.
  intros Hq Hc Hd w1 r.
  destruct (control_round_decoded json_loads w raw q c Hq Hc) as (_ & _ & Hs).
  destruct (control_round_keeps json_loads w) as ((Hsid & Hh & _) & _).
  fold w1 in Hs, Hsid, Hh.
  assert (Hd1 : heap w1 !! infos = Some d) by (by rewrite Hh).
  exists (dict_update d (heartbeat_fields w1)).
  destruct (heartbeat_fields_get w1 d) as (G1 & G2 & G3 & G4).
  rewrite Hsid in G1. rewrite Hs in G3.
  destruct (heartbeat_body_final json_dumps infos w1 d Hd1) as (Hf & _).
  fold r in Hf. rewrite Hf, lookup_insert_eq.
  repeat split; try done.
  intros payload Hp. unfold r.
  rewrite heartbeat_body_unfold, Hd1. cbv zeta. rewrite Hp.
  by destruct (reqclient w1).
Qed.

Lemma X14_command_then_heartbeat_witness :
  let w := World ServiceState.started "servicebase"
             {[ 1%positive := [("host", PStr "a")] ]} ["stop-me"] ["ok"] in
  let w1 := final (on_control_msg_body sample_loads w) in
  let r := heartbeat_body keys_dumps 1%positive w1 in
  exists d',
    heap (final r) !! 1%positive = Some d' /\
    dict_get "sid" d' = Some (PStr "servicebase") /\
    dict_get "state" d' = Some (PStr "stopped") /\
    (forall k, k <> "sid" -> k <> "type" -> k <> "state" ->
               dict_get k d' = dict_get k [("host", PStr "a")]) /\
    (forall payload, keys_dumps (PDict d') = Some payload ->
                     sent (emitted r) = [payload]).
Proof.
  intros w.
  exact (X14_command_then_heartbeat sample_loads keys_dumps 1%positive w
           "stop-me" [] CmdStop [("host", PStr "a")] eq_refl eq_refl eq_refl).
Defined.

(** X15. The messages the listener gets through are exactly those that
    carry a command: a round on a waiting message returns if and only if
    the message decodes to a dictionary with a ["sid"] and, when the sid is
    the service's own, an ["action"]; on any other message it raises.  It
    never waits when a message is there. *)
Theorem X15_control_survives_iff (json_loads : string -> option pyval)
    (w : world) (raw : string) (q : list string) :
  subclient w = raw :: q ->
  let r := on_control_msg_body json_loads w in
  (out r = Done tt <-> is_Some (decode_command json_loads (sid w) raw)) /\
  (out r <> Done tt -> exists e, out r = Raised e).
Proof.
  intros Hq r. split; [split|].
  - unfold r. rewrite on_control_msg_body_unfold, Hq. cbv zeta.
    unfold decode_command.
    destruct (json_loads raw) as [[| | | | | |d| | |]|]; try done.
    destruct (dict_get "sid" d) as [v|]; [|done].
    destruct (eq_str v (sid w)); [|by eexists].
    destruct (dict_get "action" d) as [a|]; [by eexists|done].
  - intros [c Hc].
    by destruct (control_round_decoded json_loads w raw q c Hq Hc) as (Ho & _).
  - unfold r. rewrite on_control_msg_body_unfold, Hq. cbv zeta.
    destruct (json_loads raw) as [[| | | | | |d| | |]|];
      try (intros _; by eexists).
    destruct (dict_get "sid" d) as [v|]; [|intros _; by eexists].
    destruct (eq_str v (sid w)); [|done].
    destruct (dict_get "action" d) as [a|]; [|intros _; by eexists].
    destruct (eq_str a "stop"); [done|].
    destruct (eq_str a "start"); [|done].
    destruct (run_frame (set_subclient q w)) as (Ho & _).
    unfold after. cbn [out]. by rewrite Ho.
Qed.

Lemma X15_control_survives_iff_witness :
  let w := World ServiceState.started "servicebase" ∅ ["garbage"] [] in
  let r := on_control_msg_body sample_loads w in
  (out r = Done tt <->
   is_Some (decode_command sample_loads "servicebase" "garbage")) /\
  (out r <> Done tt -> exists e, out r = Raised e).
Proof.
  intros w.
  exact (X15_control_survives_iff sample_loads w "garbage" [] eq_refl).
Defined.
